(** * LookupTable.h: a fixed-size interpolation table with a branchless binary search

    Shallow embedding of [LookupTable<T, TABLE_SIZE>::get] and proofs about it.

    - [size_t] values are integers in [0, 2^64) with the wrap-around written
      out ([wrap]); the bit operations are [Z.land], [Z.lor] and [Z.lnot].
    - [std::array<T, TABLE_SIZE>] is a list together with a proof that its
      length is [TABLE_SIZE]; [operator[]] is unchecked in C++, so a subscript
      outside the array is undefined behaviour, recorded as [OutOfBounds].
    - The element type [T] is a template parameter: the operations [get] uses
      on it form the class [Numeric].  Two instances are given: IEEE 754
      [double] (primitive floats, bit-exact) and 32-bit [int]. *)

From Stdlib Require Import ZArith List Bool Lia Floats.
Import ListNotations.

Local Open Scope Z_scope.

(** ** Outcomes of a run *)

Inductive outcome (A : Type) : Type :=
| Returns (a : A)
| OutOfBounds (i : Z)   (* subscript [i] outside the array: undefined behaviour *)
| OutOfFuel.            (* the loop was cut off by the model's iteration bound *)

Arguments Returns {A} a.
Arguments OutOfBounds {A} i.
Arguments OutOfFuel {A}.

Definition bind {A B : Type} (m : outcome A) (k : A -> outcome B) : outcome B :=
  match m with
  | Returns a => k a
  | OutOfBounds i => OutOfBounds i
  | OutOfFuel => OutOfFuel
  end.

Notation "x <- m ;; k" := (bind m (fun x => k))
  (at level 61, m at next level, right associativity).

Definition returns_value {A : Type} (m : outcome A) : bool :=
  match m with Returns _ => true | _ => false end.

(** ** [size_t] arithmetic *)

Module SizeT.

Definition bits : Z := 64.
Definition modulus : Z := 2 ^ bits.
Definition all_ones : Z := modulus - 1.

Definition in_range (z : Z) : Prop := 0 <= z < modulus.

Definition wrap (z : Z) : Z := z mod modulus.

Definition add (a b : Z) : Z := wrap (a + b).
Definition sub (a b : Z) : Z := wrap (a - b).
Definition shr (a n : Z) : Z := Z.shiftr a n.
Definition not (a : Z) : Z := wrap (Z.lnot a).

(** [static_cast<long>(v)]: the value of a [size_t] read as a signed 64-bit
    integer. *)
Definition to_long (v : Z) : Z := if v <? 2 ^ (bits - 1) then v else v - modulus.

(** [size_t mask = -static_cast<long>(cmp);] *)
Definition mask_of (cmp : Z) : Z := wrap (- to_long cmp).

End SizeT.

(** ** Arrays *)

Section Arrays.
Context {T : Type}.

(** [a.size()] *)
Definition size (a : list T) : Z := Z.of_nat (length a).

(** [a[i]], unchecked. *)
Definition subscript (a : list T) (i : Z) : outcome T :=
  if i <? 0 then OutOfBounds i
  else match nth_error a (Z.to_nat i) with
       | Some v => Returns v
       | None => OutOfBounds i
       end.

(** [a.front()] and [a.back()] *)
Definition front (a : list T) : outcome T := subscript a 0.
Definition back (a : list T) : outcome T := subscript a (SizeT.sub (size a) 1).

End Arrays.

(** ** The element type *)

(** What [get] asks of the template parameter [T], and of [double], the type
    of [denom] in which the interpolation is carried out. *)
Class Numeric (T D : Type) : Type := {
  zero : T;                      (* [return 0;] *)
  le_T : T -> T -> bool;         (* [t <= m_x.front()] *)
  ge_T : T -> T -> bool;         (* [t >= m_x.back()] *)
  gt_T : T -> T -> bool;         (* [t > m_x[mid]] *)
  sub_T : T -> T -> T;           (* [m_x[high] - m_x[low]] *)
  mul_T : T -> T -> T;           (* [m_x[high] * m_f[low]] *)
  to_double : T -> D;            (* conversion of a [T] operand to [double] *)
  of_double : D -> T;            (* conversion of the returned [double] to [T] *)
  is_zero_D : D -> bool;         (* [denom == 0] *)
  div_D : D -> D -> D;
  mul_D : D -> D -> D;
  add_D : D -> D -> D
}.

(** The comparisons of [T] form a total order.  This holds for the integer
    types; it fails for floating point types, where a NaN compares false with
    everything. *)
Class TotalOrder (T D : Type) {E : Numeric T D} : Prop := {
  le_T_refl : forall a, le_T a a = true;
  le_T_trans : forall a b c, le_T a b = true -> le_T b c = true -> le_T a c = true;
  le_T_total : forall a b, le_T a b = true \/ le_T b a = true;
  gt_T_def : forall a b, gt_T a b = negb (le_T a b);
  ge_T_def : forall a b, ge_T a b = le_T b a
}.

(** The comparisons of [T] order the values that compare with themselves:
    every value of an integer type, and every value but the NaNs of a
    floating point type.  A total order is such an order; so are the
    comparisons of [double]. *)
Class Ordered (T D : Type) {E : Numeric T D} : Prop := {
  gt_T_weaker : forall a b, gt_T a b = true -> le_T b a = true;
  gt_T_excludes : forall a b, gt_T a b = true -> le_T a b = false;
  ge_T_mirror : forall a b, ge_T a b = le_T b a;
  le_T_self : forall a b, le_T a b = true -> le_T a a = true /\ le_T b b = true;
  le_T_or_gt_T : forall a b,
      le_T a a = true -> le_T b b = true -> gt_T a b = false -> le_T a b = true
}.

(** ** The table and [get] *)

Record LookupTable (T : Type) (TABLE_SIZE : nat) : Type := mkLookupTable {
  m_x : list T;
  m_f : list T;
  m_x_size : length m_x = TABLE_SIZE;
  m_f_size : length m_f = TABLE_SIZE;
  TABLE_SIZE_fits : Z.of_nat TABLE_SIZE < SizeT.modulus
}.

Arguments mkLookupTable {T TABLE_SIZE} m_x m_f _ _ _.
Arguments m_x {T TABLE_SIZE} _.
Arguments m_f {T TABLE_SIZE} _.
Arguments m_x_size {T TABLE_SIZE} _.
Arguments m_f_size {T TABLE_SIZE} _.
Arguments TABLE_SIZE_fits {T TABLE_SIZE} _.

Section Get.
Context {T D : Type} {E : Numeric T D}.

(** [size_t low = 0; size_t high = TABLE_SIZE;] *)
Definition search_init (TABLE_SIZE : Z) : Z * Z := (0, TABLE_SIZE).

(** One execution of the loop body, from [(low, high)] with [mid] already
    read: the two masked assignments. *)
Definition masked_update (cmp mid low high : Z) : Z * Z :=
  let mask := SizeT.mask_of cmp in
  let low' := Z.lor (Z.land mid mask) (Z.land low (SizeT.not mask)) in
  let high' := Z.lor (Z.land mid (SizeT.not mask)) (Z.land high mask) in
  (low', high').

(** [size_t mid = low + ((high - low) >> 1);] *)
Definition midpoint (low high : Z) : Z :=
  SizeT.add low (SizeT.shr (SizeT.sub high low) 1).

(** [while (high - low > 1) { ... }], cut off after [fuel] iterations. *)
Fixpoint search (fuel : nat) (x : list T) (t : T) (low high : Z)
  : outcome (Z * Z) :=
  if 1 <? SizeT.sub high low then
    match fuel with
    | O => OutOfFuel
    | S fuel' =>
        let mid := midpoint low high in
        x_mid <- subscript x mid ;;
        let cmp := Z.b2z (gt_T t x_mid) in
        let '(low', high') := masked_update cmp mid low high in
        search fuel' x t low' high'
    end
  else Returns (low, high).

(** The guard [m_x.size() == 0 || m_f.size() != m_x.size()]. *)
Definition degenerate (x f : list T) : bool :=
  (size x =? 0) || negb (size f =? size x).

(** The search as [get] runs it: from [search_init], with as many
    iterations allowed as the table has entries. *)
Definition locate (x : list T) (t : T) : outcome (Z * Z) :=
  let '(low, high) := search_init (size x) in
  search (length x) x t low high.

(** The value of the [return] expression of the interpolation step. *)
Definition interpolate (x_low x_high f_low f_high : T) (denom : D) (t : T) : T :=
  of_double
    (add_D (mul_D (div_D (to_double (sub_T f_high f_low)) denom) (to_double t))
           (div_D (to_double (sub_T (mul_T x_high f_low) (mul_T x_low f_high)))
                  denom)).

(** The body of [get], on the two member arrays. *)
Definition get_on (x f : list T) (t : T) : outcome T :=
  if degenerate x f then Returns zero
  else
    x_front <- front x ;;
    if le_T t x_front then front f
    else
      x_back <- back x ;;
      if ge_T t x_back then back f
      else
        lh <- locate x t ;;
        let '(low, high) := lh in
        x_high <- subscript x high ;;
        x_low <- subscript x low ;;
        let denom := to_double (sub_T x_high x_low) in
        if is_zero_D denom then Returns zero
        else
          f_high <- subscript f high ;;
          f_low <- subscript f low ;;
          Returns (interpolate x_low x_high f_low f_high denom t).

Definition get {TABLE_SIZE : nat} (tbl : LookupTable T TABLE_SIZE) (t : T)
  : outcome T :=
  get_on (m_x tbl) (m_f tbl) t.

(** [x] is sorted in non-decreasing order. *)
Fixpoint is_sorted (x : list T) : bool :=
  match x with
  | a :: ((b :: _) as rest) => le_T a b && is_sorted rest
  | _ => true
  end.

(** An ordinary binary search with an [if], for comparison with [search]. *)
Fixpoint branching_search (fuel : nat) (x : list T) (t : T) (low high : Z)
  : outcome (Z * Z) :=
  if 1 <? SizeT.sub high low then
    match fuel with
    | O => OutOfFuel
    | S fuel' =>
        let mid := midpoint low high in
        x_mid <- subscript x mid ;;
        if gt_T t x_mid
        then branching_search fuel' x t mid high
        else branching_search fuel' x t low mid
    end
  else Returns (low, high).

End Get.

(** ** Element types *)

(** [T = double]: IEEE 754 binary64, as the primitive floats compute it. *)
#[export] Instance double_Numeric : Numeric float float := {|
  zero := 0%float;
  le_T := PrimFloat.leb;
  ge_T := fun a b => PrimFloat.leb b a;
  gt_T := fun a b => PrimFloat.ltb b a;
  sub_T := PrimFloat.sub;
  mul_T := PrimFloat.mul;
  to_double := fun a => a;
  of_double := fun d => d;
  is_zero_D := fun d => PrimFloat.eqb d 0%float;
  div_D := PrimFloat.div;
  mul_D := PrimFloat.mul;
  add_D := PrimFloat.add
|}.

(** Conversion of an integer to [double]; exact below 2^53 in magnitude,
    so for every [int]. *)
Definition Z_to_double (z : Z) : float :=
  match z with
  | Z0 => 0%float
  | Zpos _ => PrimFloat.of_uint63 (Uint63.of_Z z)
  | Zneg p => PrimFloat.opp (PrimFloat.of_uint63 (Uint63.of_Z (Zpos p)))
  end.

(** [int]: 32 bits, two's complement. *)
Definition int_min : Z := - 2 ^ 31.
Definition int_max : Z := 2 ^ 31 - 1.

(** What a signed operation leaves when its exact result [z] does not fit an
    [int].  C++ leaves signed overflow undefined; the generated code keeps
    the low 32 bits, which is what is modelled. *)
Definition int_wrap (z : Z) : Z := (z - int_min) mod 2 ^ 32 + int_min.

(** Conversion of a [double] to an [int]: the fraction is dropped.  C++
    leaves the conversion undefined when the result does not fit, for an
    infinity and for a NaN; the x86-64 conversion instruction then yields
    [int_min], which is what is modelled. *)
Definition double_to_int (d : float) : Z :=
  match Prim2SF d with
  | S754_zero _ => 0
  | S754_finite s m e =>
      let magnitude := Z.shiftl (Zpos m) e in
      let z := if s then - magnitude else magnitude in
      if (int_min <=? z) && (z <=? int_max) then z else int_min
  | _ => int_min
  end.

(** [T = int]: the values are the integers from [int_min] to [int_max]. *)
#[export] Instance int_Numeric : Numeric Z float := {|
  zero := 0;
  le_T := Z.leb;
  ge_T := Z.geb;
  gt_T := Z.gtb;
  sub_T := fun a b => int_wrap (a - b);
  mul_T := fun a b => int_wrap (a * b);
  to_double := Z_to_double;
  of_double := double_to_int;
  is_zero_D := fun d => PrimFloat.eqb d 0%float;
  div_D := PrimFloat.div;
  mul_D := PrimFloat.mul;
  add_D := PrimFloat.add
|}.

(** ** Construction, and the tables of the scenarios *)

(** [LookupTable(x, f)]: the two arrays, of the same length by their type,
    are copied into the members. *)
Definition table_of {T : Type} (x f : list T)
  (Hf : length f = length x) (Hfits : Z.of_nat (length x) < SizeT.modulus)
  : LookupTable T (length x) :=
  mkLookupTable x f eq_refl Hf Hfits.

Definition scenario_double : LookupTable float 4 :=
  table_of [0; 10; 20; 30]%float [0; 100; 50; 200]%float eq_refl eq_refl.

Definition scenario_int : LookupTable Z 4 :=
  table_of [0; 10; 20; 30] [0; 100; 50; 200] eq_refl eq_refl.

(** A sorted table whose independent samples are all equal. *)
Definition flat_int : LookupTable Z 2 :=
  table_of [5; 5] [1; 2] eq_refl eq_refl.

Definition flat_double : LookupTable float 2 :=
  table_of [5; 5]%float [1; 2]%float eq_refl eq_refl.

(** A table with a single sample. *)
Definition single_double : LookupTable float 1 :=
  table_of [1]%float [2]%float eq_refl eq_refl.

Definition single_int : LookupTable Z 1 :=
  table_of [1] [2] eq_refl eq_refl.

(** * Proofs *)

(** ** [size_t] arithmetic *)

Module SizeTFacts.
Import SizeT.

Lemma modulus_pos : 0 < modulus.
Proof. reflexivity. Qed.

Lemma wrap_small (z : Z) : in_range z -> wrap z = z.
Proof. intros Hz. apply Z.mod_small. exact Hz. Qed.

Lemma wrap_in_range (z : Z) : in_range (wrap z).
Proof. apply Z.mod_pos_bound. exact modulus_pos. Qed.

Lemma mask_of_0 : mask_of 0 = 0.
Proof. reflexivity. Qed.

Lemma mask_of_1 : mask_of 1 = all_ones.
Proof. reflexivity. Qed.

Lemma not_0 : not 0 = all_ones.
Proof. reflexivity. Qed.

Lemma not_all_ones : not all_ones = 0.
Proof. reflexivity. Qed.

Lemma land_all_ones (z : Z) : in_range z -> Z.land z all_ones = z.
Proof.
  intros Hz.
  change all_ones with (Z.ones bits).
  rewrite Z.land_ones by (unfold bits; lia).
  apply Z.mod_small. exact Hz.
Qed.

Lemma sub_small (a b : Z) : 0 <= b <= a -> a < modulus -> sub a b = a - b.
Proof. intros Hb Ha. apply wrap_small. unfold in_range. lia. Qed.

Lemma add_small (a b : Z) : 0 <= a -> 0 <= b -> a + b < modulus -> add a b = a + b.
Proof. intros Ha Hb Hs. apply wrap_small. unfold in_range. lia. Qed.

Lemma shr_1 (a : Z) : shr a 1 = a / 2.
Proof. unfold shr. rewrite Z.shiftr_div_pow2 by lia. reflexivity. Qed.

End SizeTFacts.

(** ** Arrays *)

Section ArrayFacts.
Context {T : Type}.

Lemma subscript_in_bounds (a : list T) (i : Z) :
  0 <= i < size a -> exists v, subscript a i = Returns v.
Proof.
  intros [Hlo Hhi]. unfold subscript, size in *.
  destruct (i <? 0) eqn:Hneg; [lia|].
  destruct (nth_error a (Z.to_nat i)) as [v|] eqn:Hnth.
  - exists v. reflexivity.
  - apply nth_error_None in Hnth. lia.
Qed.

Lemma subscript_returns (a : list T) (i : Z) (v : T) :
  subscript a i = Returns v -> 0 <= i < size a.
Proof.
  unfold subscript, size.
  destruct (i <? 0) eqn:Hneg; [discriminate|].
  destruct (nth_error a (Z.to_nat i)) eqn:Hnth; [|discriminate].
  intros _.
  assert (Hlt : (Z.to_nat i < length a)%nat)
    by (apply nth_error_Some; rewrite Hnth; discriminate).
  lia.
Qed.

Lemma subscript_out_of_bounds (a : list T) (i : Z) :
  size a <= i -> subscript a i = OutOfBounds i.
Proof.
  intros Hi. unfold subscript, size in *.
  destruct (i <? 0) eqn:Hneg; [reflexivity|].
  destruct (nth_error a (Z.to_nat i)) eqn:Hnth; [|reflexivity].
  assert (Hlt : (Z.to_nat i < length a)%nat)
    by (apply nth_error_Some; rewrite Hnth; discriminate).
  lia.
Qed.

Lemma subscript_nth_error (a : list T) (i : Z) (v : T) :
  subscript a i = Returns v -> 0 <= i /\ nth_error a (Z.to_nat i) = Some v.
Proof.
  unfold subscript. destruct (i <? 0) eqn:Hneg; [discriminate|].
  apply Z.ltb_ge in Hneg.
  destruct (nth_error a (Z.to_nat i)); [|discriminate].
  intros Hv. injection Hv as ->. split; [exact Hneg | reflexivity].
Qed.

End ArrayFacts.

(** ** The masked update and the search loop *)

Section SearchFacts.
Context {T D : Type} {E : Numeric T D}.
Import SizeT SizeTFacts.

Arguments masked_update : simpl never.
Arguments midpoint : simpl never.

Lemma masked_update_1 (mid low high : Z) :
  in_range mid -> in_range high ->
  masked_update 1 mid low high = (mid, high).
Proof.
  intros Hm Hh. unfold masked_update.
  rewrite mask_of_1, not_all_ones, !Z.land_0_r, Z.lor_0_r, Z.lor_0_l.
  rewrite !land_all_ones by assumption. reflexivity.
Qed.

Lemma masked_update_0 (mid low high : Z) :
  in_range mid -> in_range low ->
  masked_update 0 mid low high = (low, mid).
Proof.
  intros Hm Hl. unfold masked_update.
  rewrite mask_of_0, not_0, !Z.land_0_r, Z.lor_0_r, Z.lor_0_l.
  rewrite !land_all_ones by assumption. reflexivity.
Qed.

Lemma midpoint_in_range (low high : Z) : in_range (midpoint low high).
Proof. apply wrap_in_range. Qed.

Lemma search_unfold (fuel : nat) (x : list T) (t : T) (low high : Z) :
  search (S fuel) x t low high =
  if 1 <? sub high low then
    x_mid <- subscript x (midpoint low high) ;;
    let next := masked_update (Z.b2z (gt_T t x_mid)) (midpoint low high) low high in
    search fuel x t (fst next) (snd next)
  else Returns (low, high).
Proof. reflexivity. Qed.

Lemma search_branching (fuel : nat) (x : list T) (t : T) :
  forall low high, in_range low -> in_range high ->
    search fuel x t low high = branching_search fuel x t low high.
Proof.
  induction fuel as [|fuel IH]; intros low high Hl Hh.
  - reflexivity.
  - rewrite search_unfold. cbn [branching_search].
    destruct (1 <? sub high low); [|reflexivity].
    destruct (subscript x (midpoint low high)) as [x_mid| |];
      cbn [bind]; try reflexivity.
    pose proof (midpoint_in_range low high) as Hm.
    destruct (gt_T t x_mid); cbn [Z.b2z].
    + rewrite masked_update_1 by assumption. apply IH; assumption.
    + rewrite masked_update_0 by assumption. apply IH; assumption.
Qed.

(** Between bounds that fit a [size_t], [mid] is the rounded-down middle. *)
Lemma midpoint_small (low high : Z) :
  0 <= low <= high -> high < modulus ->
  midpoint low high = low + (high - low) / 2.
Proof.
  intros Hl Hh. unfold midpoint.
  rewrite sub_small, shr_1 by lia.
  apply add_small; try lia.
  - apply Z.div_pos; lia.
  - assert ((high - low) / 2 <= high - low) by (apply Z.div_le_upper_bound; lia).
    lia.
Qed.

(** What the loop establishes, whatever the element type's comparison does:
    it stops within the allowed iterations on two adjacent indices, each
    bound either untouched or the index of a probe that moved it there. *)
Lemma search_exit (x : list T) (t : T) :
  forall (fuel : nat) (low high : Z),
    0 <= low < high -> high <= size x -> size x < modulus ->
    (Z.to_nat (high - low) <= fuel)%nat ->
    exists low' high',
      search fuel x t low high = Returns (low', high') /\
      high' = low' + 1 /\ low <= low' /\ high' <= high /\
      (low' = low \/
       exists v, subscript x low' = Returns v /\ gt_T t v = true) /\
      (high' = high \/
       exists v, subscript x high' = Returns v /\ gt_T t v = false).
Proof.
  intros fuel low high Hlh Hh Hfit Hfuel.
  rewrite search_branching by (unfold in_range; lia).
  revert low high Hlh Hh Hfuel.
  induction fuel as [|fuel IH]; intros low high Hlh Hh Hfuel.
  - lia.
  - simpl. rewrite sub_small by lia.
    destruct (1 <? high - low) eqn:Hgo.
    + apply Z.ltb_lt in Hgo.
      rewrite midpoint_small by lia.
      set (mid := low + (high - low) / 2).
      assert (Hmid : low < mid < high).
      { unfold mid.
        assert (0 < (high - low) / 2) by (apply Z.div_str_pos; lia).
        assert ((high - low) / 2 < high - low) by (apply Z.div_lt; lia).
        lia. }
      destruct (subscript_in_bounds x mid) as [x_mid Hx_mid]; [lia|].
      rewrite Hx_mid. simpl.
      destruct (gt_T t x_mid) eqn:Hcmp.
      * destruct (IH mid high) as (l' & h' & Hs & Hadj & Hl' & Hh' & Hlow & Hhigh);
          try lia.
        exists l', h'. repeat split; try assumption; try lia.
        destruct Hlow as [-> | Hlow]; [|right; assumption].
        right. exists x_mid. split; assumption.
      * destruct (IH low mid) as (l' & h' & Hs & Hadj & Hl' & Hh' & Hlow & Hhigh);
          try lia.
        exists l', h'. repeat split; try assumption; try lia.
        destruct Hhigh as [-> | Hhigh]; [|right; assumption].
        right. exists x_mid. split; assumption.
    + apply Z.ltb_ge in Hgo.
      exists low, high. repeat split; try lia; left; reflexivity.
Qed.

End SearchFacts.

(** ** Consequences of a total order *)

Section OrderFacts.
Context {T D : Type} {E : Numeric T D} {O : TotalOrder T D}.

Lemma gt_T_le_T (a b : T) : gt_T a b = true -> le_T b a = true.
Proof.
  rewrite gt_T_def. intros Hgt.
  destruct (le_T_total a b) as [Hab | Hba]; [|exact Hba].
  rewrite Hab in Hgt. discriminate.
Qed.

Lemma not_gt_T_le_T (a b : T) : gt_T a b = false -> le_T a b = true.
Proof. rewrite gt_T_def. destruct (le_T a b); [reflexivity | discriminate]. Qed.

Lemma gt_T_asym (a b : T) : gt_T a b = true -> gt_T b a = true -> False.
Proof.
  intros Hab Hba. apply gt_T_le_T in Hab.
  rewrite gt_T_def, Hab in Hba. discriminate.
Qed.

Lemma gt_T_not_le_T (a b : T) : gt_T a b = true -> le_T a b = false.
Proof. rewrite gt_T_def. destruct (le_T a b); [discriminate | reflexivity]. Qed.

Lemma lt_T_not_ge_T (a b : T) : gt_T b a = true -> ge_T a b = false.
Proof. rewrite ge_T_def. apply gt_T_not_le_T. Qed.

Lemma gt_T_ge_T (a b : T) : gt_T a b = true -> ge_T a b = true.
Proof. rewrite ge_T_def. apply gt_T_le_T. Qed.

End OrderFacts.

#[export] Instance int_TotalOrder : TotalOrder Z float.
Proof.
  split; cbn [le_T ge_T gt_T int_Numeric].
  - intros a. apply Z.leb_refl.
  - intros a b c Hab Hbc. apply Z.leb_le. apply Z.leb_le in Hab, Hbc. lia.
  - intros a b. rewrite !Z.leb_le. lia.
  - intros a b. rewrite Z.gtb_ltb, Z.ltb_antisym. reflexivity.
  - intros a b. apply Z.geb_leb.
Qed.

(** ** The search as [get] runs it *)

Section LocateFacts.
Context {T D : Type} {E : Numeric T D}.
Import SizeT SizeTFacts.

(** More allowed iterations do not change a result: the iteration bound of
    the model plays no part in what the loop computes. *)
Lemma search_fuel_mono (x : list T) (t : T) :
  forall (fuel fuel' : nat) (low high : Z) (r : Z * Z),
    (fuel <= fuel')%nat ->
    search fuel x t low high = Returns r ->
    search fuel' x t low high = Returns r.
Proof.
  induction fuel as [|fuel IH]; intros fuel' low high r Hle Hs.
  - destruct fuel'; cbn [search] in *;
      destruct (1 <? sub high low); congruence.
  - destruct fuel' as [|fuel']; [lia|].
    rewrite search_unfold in *.
    destruct (1 <? sub high low); [|exact Hs].
    destruct (subscript x (midpoint low high)) as [x_mid| |];
      cbn [bind] in *; try discriminate.
    apply IH; [lia | exact Hs].
Qed.

Lemma back_subscript (x : list T) :
  0 < size x < modulus -> back x = subscript x (size x - 1).
Proof. intros Hx. unfold back. rewrite sub_small by lia. reflexivity. Qed.

(** A result of [locate] is the result under every larger iteration bound. *)
Lemma locate_any_fuel {TABLE_SIZE : nat}
  (tbl : LookupTable T TABLE_SIZE) (t : T) (r : Z * Z) :
  locate (m_x tbl) t = Returns r ->
  forall fuel, (TABLE_SIZE <= fuel)%nat ->
    search fuel (m_x tbl) t 0 (Z.of_nat TABLE_SIZE) = Returns r.
Proof.
  intros Hloc fuel Hfuel.
  unfold locate, search_init, size in Hloc. rewrite (m_x_size tbl) in Hloc.
  exact (search_fuel_mono _ _ _ _ _ _ _ Hfuel Hloc).
Qed.

(** On a non-empty table the search stops on two adjacent indices, the
    lower one inside the table, whatever the comparisons answer. *)
Lemma locate_exit {TABLE_SIZE : nat} (tbl : LookupTable T TABLE_SIZE) (t : T) :
  (1 <= TABLE_SIZE)%nat ->
  exists low high,
    locate (m_x tbl) t = Returns (low, high) /\
    high = low + 1 /\ 0 <= low /\ high <= Z.of_nat TABLE_SIZE /\
    (low = 0 \/
     exists v, subscript (m_x tbl) low = Returns v /\ gt_T t v = true) /\
    (high = Z.of_nat TABLE_SIZE \/
     exists v, subscript (m_x tbl) high = Returns v /\ gt_T t v = false).
Proof.
  intros Hn.
  pose proof (m_x_size tbl) as Hlen. pose proof (TABLE_SIZE_fits tbl) as Hfit.
  unfold locate, search_init.
  destruct (search_exit (m_x tbl) t (length (m_x tbl)) 0 (size (m_x tbl)))
    as (low & high & Hs & Hadj & Hlow & Hhigh & Hl & Hh);
    unfold size in *; try lia.
  exists low, high. rewrite Hlen in *. repeat split; assumption || lia.
Qed.

End LocateFacts.

(** ** Orders up to NaN *)

#[export] Instance TotalOrder_Ordered
  {T D : Type} {E : Numeric T D} {O : TotalOrder T D} : Ordered T D.
Proof.
  split.
  - intros a b. apply gt_T_le_T.
  - intros a b. apply gt_T_not_le_T.
  - apply ge_T_def.
  - intros a b _. split; apply le_T_refl.
  - intros a b _ _. apply not_gt_T_le_T.
Qed.

Lemma mantissa_antisym (m1 m2 : positive) :
  Pos.compare_cont Eq m2 m1 = CompOpp (Pos.compare_cont Eq m1 m2).
Proof. symmetry. exact (Pos.compare_cont_antisym m1 m2 Eq). Qed.

(** The comparison of the floating point specification, read from right to
    left, gives the opposite answer. *)
Lemma SFcompare_antisym (f1 f2 : spec_float) :
  SFcompare f2 f1 = option_map CompOpp (SFcompare f1 f2).
Proof.
  destruct f1 as [s1 | s1 | | s1 m1 e1], f2 as [s2 | s2 | | s2 m2 e2];
    cbn [SFcompare option_map];
    try destruct s1; try destruct s2; try reflexivity.
  - rewrite (Z.compare_antisym e1 e2), (mantissa_antisym m1 m2).
    destruct (e1 ?= e2); reflexivity.
  - rewrite (Z.compare_antisym e1 e2), (mantissa_antisym m1 m2).
    destruct (e1 ?= e2); reflexivity.
Qed.

(** Two values that compare are each equal to themselves: neither is a NaN. *)
Lemma SFcompare_self (f1 f2 : spec_float) (c : comparison) :
  SFcompare f1 f2 = Some c ->
  SFcompare f1 f1 = Some Eq /\ SFcompare f2 f2 = Some Eq.
Proof.
  assert (Hself : forall f, f <> S754_nan -> SFcompare f f = Some Eq).
  { intros [s | s | | s m e] Hf; cbn [SFcompare].
    - reflexivity.
    - destruct s; reflexivity.
    - congruence.
    - rewrite Z.compare_refl, Pos.compare_cont_refl. destruct s; reflexivity. }
  intros Hc. split; apply Hself; intros Hnan; subst;
    [destruct f2 | destruct f1]; discriminate Hc.
Qed.

#[export] Instance double_Ordered : Ordered float float.
Proof.
  split; cbn [le_T ge_T gt_T double_Numeric].
  - intros a b. rewrite ltb_spec, leb_spec. unfold SFltb, SFleb.
    destruct (SFcompare (Prim2SF b) (Prim2SF a)) as [[| |]|];
      intros Hlt; reflexivity || discriminate.
  - intros a b. rewrite ltb_spec, leb_spec. unfold SFltb, SFleb.
    rewrite (SFcompare_antisym (Prim2SF b) (Prim2SF a)).
    destruct (SFcompare (Prim2SF b) (Prim2SF a)) as [[| |]|];
      intros Hlt; reflexivity || discriminate.
  - reflexivity.
  - intros a b. rewrite !leb_spec. unfold SFleb.
    destruct (SFcompare (Prim2SF a) (Prim2SF b)) as [c|] eqn:Hc; [|discriminate].
    intros _. destruct (SFcompare_self _ _ _ Hc) as [-> ->]. split; reflexivity.
  - intros a b. rewrite ltb_spec, !leb_spec. unfold SFltb, SFleb.
    rewrite (SFcompare_antisym (Prim2SF b) (Prim2SF a)).
    destruct (SFcompare (Prim2SF a) (Prim2SF a)) as [ca|] eqn:Ha; [|discriminate].
    destruct (SFcompare (Prim2SF b) (Prim2SF b)) as [cb|] eqn:Hb; [|discriminate].
    intros _ _.
    destruct (SFcompare (Prim2SF b) (Prim2SF a)) as [[| |]|] eqn:Hba;
      cbn [option_map CompOpp]; intros Hnot; try reflexivity; try discriminate.
    exfalso. destruct (Prim2SF a), (Prim2SF b); discriminate.
Qed.

Section OrderedFacts.
Context {T D : Type} {E : Numeric T D} {O : Ordered T D}.

Lemma gt_T_one_way (a b : T) : gt_T a b = true -> gt_T b a = true -> False.
Proof.
  intros Hab Hba. apply gt_T_weaker in Hab. apply gt_T_excludes in Hba.
  congruence.
Qed.

Lemma gt_T_self (a b : T) : gt_T a b = true -> le_T a a = true /\ le_T b b = true.
Proof.
  intros Hgt. apply gt_T_weaker in Hgt.
  destruct (le_T_self _ _ Hgt) as [Hb Ha]. split; assumption.
Qed.

(** In a sorted array of two samples or more every sample compares with
    itself: none is a NaN. *)
Lemma is_sorted_self (x : list T) :
  is_sorted x = true -> (2 <= length x)%nat ->
  forall (i : nat) (v : T), nth_error x i = Some v -> le_T v v = true.
Proof.
  induction x as [|a [|b rest] IH]; intros Hs Hlen i v Hi;
    cbn [length] in Hlen; try lia.
  cbn [is_sorted] in Hs. apply andb_true_iff in Hs. destruct Hs as [Hab Hrest].
  destruct (le_T_self _ _ Hab) as [Ha Hb].
  destruct i as [|i].
  - injection Hi as <-. exact Ha.
  - cbn [nth_error] in Hi. destruct rest as [|c rest'].
    + destruct i as [|i]; [injection Hi as <-; exact Hb | destruct i; discriminate].
    + apply (IH Hrest) with (i := i); [cbn [length]; lia | exact Hi].
Qed.

End OrderedFacts.

(** ** Bracketing *)

Section BracketFacts.
Context {T D : Type} {E : Numeric T D} {O : Ordered T D}.
Import SizeT SizeTFacts.

(** For [x[0] < t < x[N-1]] the search stops inside the table, on a sample
    below [t] followed by one that is not.  The order of the samples in
    between plays no part. *)
Lemma locate_brackets {TABLE_SIZE : nat}
  (tbl : LookupTable T TABLE_SIZE) (t x_first x_last : T) :
  (1 <= TABLE_SIZE)%nat ->
  front (m_x tbl) = Returns x_first ->
  back (m_x tbl) = Returns x_last ->
  gt_T t x_first = true ->
  gt_T x_last t = true ->
  exists low high x_low x_high,
    locate (m_x tbl) t = Returns (low, high) /\
    high = low + 1 /\
    subscript (m_x tbl) low = Returns x_low /\
    subscript (m_x tbl) high = Returns x_high /\
    gt_T t x_low = true /\ gt_T t x_high = false.
Proof.
  intros Hn Hfront Hback Hfirst Hlast.
  pose proof (m_x_size tbl) as Hlen. pose proof (TABLE_SIZE_fits tbl) as Hfit.
  rewrite back_subscript in Hback by (unfold size; lia).
  unfold front, size in *. rewrite Hlen in Hback.
  destruct (locate_exit tbl t) as (low & high & Hs & Hadj & Hlow & Hhigh & Hl & Hh);
    [lia|].
  assert (Hx_low : exists x_low,
             subscript (m_x tbl) low = Returns x_low /\ gt_T t x_low = true).
  { destruct Hl as [-> | Hl]; [|exact Hl]. exists x_first. split; assumption. }
  destruct Hx_low as (x_low & Hx_low & Hgt).
  assert (Hx_high : exists x_high,
             subscript (m_x tbl) high = Returns x_high /\ gt_T t x_high = false).
  { destruct Hh as [-> | Hh]; [|exact Hh]. exfalso.
    assert (low = Z.of_nat TABLE_SIZE - 1) by lia. subst low.
    rewrite Hback in Hx_low. injection Hx_low as <-.
    exact (gt_T_one_way _ _ Hgt Hlast). }
  destruct Hx_high as (x_high & Hx_high & Hngt).
  exists low, high, x_low, x_high.
  repeat split; assumption.
Qed.

(** On a sorted table of two samples or more the bracketing samples are
    not NaN, so the search leaves [x[low] <= t <= x[high]]. *)
Lemma locate_brackets_sorted {TABLE_SIZE : nat}
  (tbl : LookupTable T TABLE_SIZE) (t x_first x_last : T) :
  (2 <= TABLE_SIZE)%nat ->
  is_sorted (m_x tbl) = true ->
  front (m_x tbl) = Returns x_first ->
  back (m_x tbl) = Returns x_last ->
  gt_T t x_first = true ->
  gt_T x_last t = true ->
  exists low high x_low x_high,
    locate (m_x tbl) t = Returns (low, high) /\
    high = low + 1 /\
    subscript (m_x tbl) low = Returns x_low /\
    subscript (m_x tbl) high = Returns x_high /\
    le_T x_low t = true /\ le_T t x_high = true.
Proof.
  intros Hn Hsorted Hfront Hback Hfirst Hlast.
  destruct (locate_brackets tbl t x_first x_last) as
    (low & high & x_low & x_high & Hloc & Hadj & Hxl & Hxh & Hgt & Hngt);
    try assumption; [lia|].
  exists low, high, x_low, x_high.
  repeat split; try assumption.
  - apply gt_T_weaker. exact Hgt.
  - apply le_T_or_gt_T; [| |exact Hngt].
    + apply (gt_T_self t x_first). exact Hfirst.
    + apply subscript_nth_error in Hxh. destruct Hxh as [_ Hnth].
      apply (is_sorted_self (m_x tbl) Hsorted) with (i := Z.to_nat high);
        [rewrite (m_x_size tbl); exact Hn | exact Hnth].
Qed.

End BracketFacts.

(** * The claims *)

(** C3. With [cmp] either 0 or 1, the mask computed from it is all ones or
    all zeros, and the two masked assignments of the loop body select
    [low' = cmp ? mid : low] and [high' = cmp ? high : mid]; so from any
    bounds that are [size_t] values the branchless loop and a binary search
    written with an [if] yield the same outcome. *)
Theorem branchless_search_is_branching_search :
  (forall cmp mid low high : Z,
      cmp = 0 \/ cmp = 1 ->
      SizeT.in_range mid -> SizeT.in_range low -> SizeT.in_range high ->
      SizeT.mask_of cmp = (if cmp =? 1 then SizeT.all_ones else 0) /\
      masked_update cmp mid low high =
      (if cmp =? 1 then mid else low, if cmp =? 1 then high else mid)) /\
  (forall (T D : Type) (E : Numeric T D) (fuel : nat) (x : list T) (t : T)
          (low high : Z),
      SizeT.in_range low -> SizeT.in_range high ->
      search fuel x t low high = branching_search fuel x t low high).
Proof.
  split.
  - intros cmp mid low high [-> | ->] Hm Hl Hh; cbn [Z.eqb Pos.eqb].
    + split; [reflexivity | apply masked_update_0; assumption].
    + split; [reflexivity | apply masked_update_1; assumption].
  - intros T D E fuel x t low high Hl Hh. apply search_branching; assumption.
Qed.

Lemma branchless_search_is_branching_search_witness :
  (SizeT.mask_of 1 = SizeT.all_ones /\ masked_update 1 3 0 9 = (3, 9)) /\
  search 4 [0; 10; 20; 30] 15 0 4 = branching_search 4 [0; 10; 20; 30] 15 0 4.
Proof.
  split.
  - apply (proj1 branchless_search_is_branching_search 1 3 0 9);
      [right; reflexivity | | | ]; unfold SizeT.in_range, SizeT.modulus, SizeT.bits;
      simpl; lia.
  - apply (proj2 branchless_search_is_branching_search Z float int_Numeric);
      unfold SizeT.in_range, SizeT.modulus, SizeT.bits; simpl; lia.
Defined.

(** C1. On a table of at least two samples whose independent sequence is
    sorted, for a query [t] with [x[0] < t < x[N-1]], the loop of [get]
    terminates, with the same result under every iteration bound from
    [TABLE_SIZE] on, and on exit [high = low + 1], both indices are inside
    the table and [x[low] <= t <= x[high]].  This holds for every element
    type whose comparisons are an order up to NaN, [double] and [int]
    included. *)
Theorem search_brackets_query
  {T D : Type} {E : Numeric T D} {O : Ordered T D} {TABLE_SIZE : nat}
  (tbl : LookupTable T TABLE_SIZE) (t x_first x_last : T) :
  (2 <= TABLE_SIZE)%nat ->
  is_sorted (m_x tbl) = true ->
  front (m_x tbl) = Returns x_first ->
  back (m_x tbl) = Returns x_last ->
  gt_T t x_first = true ->
  gt_T x_last t = true ->
  exists low high x_low x_high,
    locate (m_x tbl) t = Returns (low, high) /\
    (forall fuel, (TABLE_SIZE <= fuel)%nat ->
       search fuel (m_x tbl) t 0 (Z.of_nat TABLE_SIZE) = Returns (low, high)) /\
    high = low + 1 /\
    subscript (m_x tbl) low = Returns x_low /\
    subscript (m_x tbl) high = Returns x_high /\
    le_T x_low t = true /\ le_T t x_high = true.
Proof.
  intros Hn Hsorted Hfront Hback Hfirst Hlast.
  destruct (locate_brackets_sorted tbl t x_first x_last) as
    (low & high & x_low & x_high & Hloc & Hadj & Hxl & Hxh & Hle_low & Hle_high);
    try assumption.
  exists low, high, x_low, x_high.
  repeat split; try assumption.
  intros fuel Hfuel. apply (locate_any_fuel tbl); assumption.
Qed.

Lemma search_brackets_query_witness :
  exists low high x_low x_high,
    locate (m_x scenario_double) 15%float = Returns (low, high) /\
    (forall fuel, (4 <= fuel)%nat ->
       search fuel (m_x scenario_double) 15%float 0 4 = Returns (low, high)) /\
    high = low + 1 /\
    subscript (m_x scenario_double) low = Returns x_low /\
    subscript (m_x scenario_double) high = Returns x_high /\
    le_T x_low 15%float = true /\ le_T 15%float x_high = true.
Proof.
  apply (search_brackets_query (O := double_Ordered)
           scenario_double 15%float 0%float 30%float);
    try reflexivity; lia.
Defined.

Section InterpolationFacts.
Context {T D : Type} {E : Numeric T D} {O : Ordered T D}.


End InterpolationFacts.



(** ** Clamping at the boundaries *)

Section ClampFacts.
Context {T D : Type} {E : Numeric T D}.
Import SizeT SizeTFacts.

Lemma degenerate_table {TABLE_SIZE : nat} (tbl : LookupTable T TABLE_SIZE) :
  degenerate (m_x tbl) (m_f tbl) = (TABLE_SIZE =? 0)%nat.
Proof.
  unfold degenerate, size.
  rewrite (m_x_size tbl), (m_f_size tbl), Z.eqb_refl. cbn [negb].
  rewrite orb_false_r.
  destruct TABLE_SIZE; reflexivity.
Qed.

Lemma get_at_or_below_front {TABLE_SIZE : nat}
  (tbl : LookupTable T TABLE_SIZE) (t x_first f_first : T) :
  front (m_x tbl) = Returns x_first ->
  front (m_f tbl) = Returns f_first ->
  le_T t x_first = true ->
  get tbl t = Returns f_first.
Proof.
  intros Hx Hf Hle.
  assert (Hn : TABLE_SIZE <> 0%nat).
  { intros ->. pose proof (m_x_size tbl) as Hlen.
    apply length_zero_iff_nil in Hlen. rewrite Hlen in Hx. discriminate. }
  unfold get, get_on. rewrite degenerate_table.
  destruct TABLE_SIZE; [congruence|]. cbn [Nat.eqb].
  rewrite Hx. cbn [bind]. rewrite Hle. exact Hf.
Qed.

Lemma get_at_or_above_back {TABLE_SIZE : nat}
  (tbl : LookupTable T TABLE_SIZE) (t x_first x_last f_last : T) :
  front (m_x tbl) = Returns x_first ->
  back (m_x tbl) = Returns x_last ->
  back (m_f tbl) = Returns f_last ->
  le_T t x_first = false ->
  ge_T t x_last = true ->
  get tbl t = Returns f_last.
Proof.
  intros Hx Hb Hf Hle Hge.
  assert (Hn : TABLE_SIZE <> 0%nat).
  { intros ->. pose proof (m_x_size tbl) as Hlen.
    apply length_zero_iff_nil in Hlen. rewrite Hlen in Hx. discriminate. }
  unfold get, get_on. rewrite degenerate_table.
  destruct TABLE_SIZE; [congruence|]. cbn [Nat.eqb].
  rewrite Hx. cbn [bind]. rewrite Hle, Hb. cbn [bind]. rewrite Hge. exact Hf.
Qed.

End ClampFacts.

(** C4, as the claim states it, fails on a sorted table whose independent
    samples are all equal: the query 5 is [>= x[N-1]], yet [get] answers
    [f[0] = 1], not [f[N-1] = 2], because the test against the front comes
    first. *)
Lemma get_back_clamp_counterexample :
  is_sorted (m_x flat_int) = true /\
  ~ (forall t x_last f_last : Z,
        back (m_x flat_int) = Returns x_last ->
        back (m_f flat_int) = Returns f_last ->
        ge_T t x_last = true ->
        get flat_int t = Returns f_last).
Proof.
  split; [reflexivity|].
  intros Hclaim.
  specialize (Hclaim 5 5 2 eq_refl eq_refl eq_refl).
  discriminate Hclaim.
Qed.

(** C4, amended.  On a non-empty table: if [t <= x[0]] then [get] returns
    [f[0]]; if [t >= x[N-1]] and not [t <= x[0]] then [get] returns [f[N-1]].
    In particular [get(x[0]) = f[0]] when [x[0] <= x[0]], and
    [get(x[N-1]) = f[N-1]] when [x[N-1] >= x[N-1]] and not [x[N-1] <= x[0]].
    A query outside the sampled domain is answered by a boundary sample. *)
Theorem get_clamps
  {T D : Type} {E : Numeric T D} {TABLE_SIZE : nat}
  (tbl : LookupTable T TABLE_SIZE) (x_first x_last f_first f_last : T) :
  front (m_x tbl) = Returns x_first ->
  back (m_x tbl) = Returns x_last ->
  front (m_f tbl) = Returns f_first ->
  back (m_f tbl) = Returns f_last ->
  (forall t, le_T t x_first = true -> get tbl t = Returns f_first) /\
  (forall t, le_T t x_first = false -> ge_T t x_last = true ->
             get tbl t = Returns f_last) /\
  (le_T x_first x_first = true -> get tbl x_first = Returns f_first) /\
  (le_T x_last x_first = false -> ge_T x_last x_last = true ->
   get tbl x_last = Returns f_last).
Proof.
  intros Hxf Hxl Hff Hfl.
  repeat split.
  - intros t. apply get_at_or_below_front; assumption.
  - intros t. apply (get_at_or_above_back tbl t x_first x_last); assumption.
  - apply get_at_or_below_front; assumption.
  - apply (get_at_or_above_back tbl x_last x_first x_last); assumption.
Qed.

Lemma get_clamps_witness :
  (forall t, le_T t 0 = true -> get scenario_int t = Returns 0) /\
  (forall t, le_T t 0 = false -> ge_T t 30 = true ->
             get scenario_int t = Returns 200) /\
  (le_T 0 0 = true -> get scenario_int 0 = Returns 0) /\
  (le_T 30 0 = false -> ge_T 30 30 = true -> get scenario_int 30 = Returns 200).
Proof.
  apply (get_clamps scenario_int 0 30 0 200); reflexivity.
Defined.

(** C5. [get] returns the element type's zero, as an ordinary return value:
    for every query when the table is empty or the two arrays differ in
    length; and for a query that reaches the interpolation step with
    [x[high] - x[low] == 0]. *)
Theorem get_degenerate_returns_zero {T D : Type} {E : Numeric T D} :
  (forall (x f : list T) (t : T),
      length x = 0%nat \/ length f <> length x ->
      get_on x f t = Returns zero) /\
  (forall (TABLE_SIZE : nat) (tbl : LookupTable T TABLE_SIZE)
          (t x_first x_last x_low x_high : T) (low high : Z),
      front (m_x tbl) = Returns x_first -> le_T t x_first = false ->
      back (m_x tbl) = Returns x_last -> ge_T t x_last = false ->
      locate (m_x tbl) t = Returns (low, high) ->
      subscript (m_x tbl) high = Returns x_high ->
      subscript (m_x tbl) low = Returns x_low ->
      is_zero_D (to_double (sub_T x_high x_low)) = true ->
      get tbl t = Returns zero).
Proof.
  split.
  - intros x f t Hdeg. unfold get_on, degenerate, size.
    destruct Hdeg as [Hx | Hf].
    + rewrite Hx. reflexivity.
    + destruct (Z.of_nat (length f) =? Z.of_nat (length x)) eqn:Heq.
      * apply Z.eqb_eq in Heq. lia.
      * rewrite orb_true_r. reflexivity.
  - intros TABLE_SIZE tbl t x_first x_last x_low x_high low high
           Hfront Hle Hback Hge Hloc Hxh Hxl Hzero.
    unfold get, get_on. rewrite degenerate_table.
    destruct TABLE_SIZE.
    + pose proof (m_x_size tbl) as Hlen.
      apply length_zero_iff_nil in Hlen. rewrite Hlen in Hfront. discriminate.
    + cbn [Nat.eqb]. rewrite Hfront. cbn [bind].
      rewrite Hle, Hback. cbn [bind].
      rewrite Hge, Hloc. cbn [bind].
      rewrite Hxh, Hxl. cbn [bind].
      rewrite Hzero. reflexivity.
Qed.

Lemma get_degenerate_returns_zero_witness :
  (get_on (@nil Z) (@nil Z) 7 = Returns 0 /\
   get_on [1; 2; 3] [1; 2] 7 = Returns 0) /\
  get flat_double nan = Returns 0%float.
Proof.
  split; [split|].
  - apply (proj1 (get_degenerate_returns_zero (E := int_Numeric))).
    left. reflexivity.
  - apply (proj1 (get_degenerate_returns_zero (E := int_Numeric))).
    right. simpl. lia.
  - apply (proj2 (get_degenerate_returns_zero (E := double_Numeric))
             2%nat flat_double nan
             5%float 5%float 5%float 5%float 0 1); reflexivity.
Defined.

(** ** When [get] returns *)

Section TotalityFacts.
Context {T D : Type} {E : Numeric T D}.
Import SizeT SizeTFacts.

(** [get] returns a value as soon as [a > b] implies [a >= b], provided the
    table has two samples or more, or [<=] and [>=] cannot both fail. *)
Lemma get_returns {TABLE_SIZE : nat} (tbl : LookupTable T TABLE_SIZE) (t : T) :
  (forall a b, gt_T a b = true -> ge_T a b = true) ->
  (2 <= TABLE_SIZE)%nat \/ (forall a b, le_T a b = false -> ge_T a b = true) ->
  exists v, get tbl t = Returns v.
Proof.
  intros Hgt_ge Hcase.
  pose proof (m_x_size tbl) as Hx. pose proof (m_f_size tbl) as Hf.
  pose proof (TABLE_SIZE_fits tbl) as Hfit.
  unfold get, get_on. rewrite degenerate_table.
  destruct (TABLE_SIZE =? 0)%nat eqn:Hempty; [eexists; reflexivity|].
  apply Nat.eqb_neq in Hempty.
  assert (Hin : forall a : list T, length a = TABLE_SIZE ->
              forall i, 0 <= i < Z.of_nat TABLE_SIZE ->
              exists v, subscript a i = Returns v).
  { intros a Ha i Hi. apply subscript_in_bounds. unfold size. lia. }
  rewrite !back_subscript by (unfold size; lia).
  unfold front, size. rewrite Hx, Hf.
  destruct (Hin (m_x tbl) Hx 0) as [x_first Hxf]; [lia|].
  destruct (Hin (m_f tbl) Hf 0) as [f_first Hff]; [lia|].
  destruct (Hin (m_x tbl) Hx (Z.of_nat TABLE_SIZE - 1)) as [x_last Hxl]; [lia|].
  destruct (Hin (m_f tbl) Hf (Z.of_nat TABLE_SIZE - 1)) as [f_last Hfl]; [lia|].
  rewrite Hxf. cbn [bind].
  destruct (le_T t x_first) eqn:Hle; [exists f_first; exact Hff|].
  rewrite Hxl. cbn [bind].
  destruct (ge_T t x_last) eqn:Hge; [exists f_last; exact Hfl|].
  destruct (locate_exit tbl t) as (low & high & Hloc & Hadj & Hlow & Hhigh & Hl & Hh);
    [lia|].
  assert (Hinside : high < Z.of_nat TABLE_SIZE).
  { destruct (Z.eq_dec high (Z.of_nat TABLE_SIZE)) as [Heq | Hne]; [|lia].
    exfalso.
    assert (Hlast : low = Z.of_nat TABLE_SIZE - 1) by lia.
    destruct Hl as [Hzero | (v & Hv & Hgt)].
    - destruct Hcase as [Htwo | Htotal]; [lia|].
      assert (x_last = x_first).
      { rewrite <- Hlast, Hzero, Hxf in Hxl. congruence. }
      subst x_last. rewrite (Htotal _ _ Hle) in Hge. discriminate.
    - rewrite Hlast, Hxl in Hv. injection Hv as <-.
      rewrite (Hgt_ge _ _ Hgt) in Hge. discriminate. }
  rewrite Hloc. cbn [bind].
  destruct (Hin (m_x tbl) Hx high) as [x_high Hxh]; [lia|].
  destruct (Hin (m_x tbl) Hx low) as [x_low Hxlow]; [lia|].
  destruct (Hin (m_f tbl) Hf high) as [f_high Hfh]; [lia|].
  destruct (Hin (m_f tbl) Hf low) as [f_low Hflow]; [lia|].
  rewrite Hxh, Hxlow. cbn [bind].
  destruct (is_zero_D _); [eexists; reflexivity|].
  rewrite Hfh, Hflow. cbn [bind]. eexists; reflexivity.
Qed.

End TotalityFacts.

(** X4. With a totally ordered element type [get] returns a value on every
    table and every query: no subscript leaves the arrays. *)
Lemma get_returns_total_order
  {T D : Type} {E : Numeric T D} {O : TotalOrder T D} {TABLE_SIZE : nat}
  (tbl : LookupTable T TABLE_SIZE) (t : T) :
  exists v, get tbl t = Returns v.
Proof.
  apply get_returns.
  - intros a b. apply gt_T_ge_T.
  - right. intros a b Hle. rewrite ge_T_def.
    destruct (le_T_total a b) as [Hab | Hba]; [congruence | exact Hba].
Qed.

(** For [double], [a > b] implies [a >= b], NaN included. *)
Lemma double_gt_ge (a b : float) :
  gt_T a b = true -> ge_T a b = true.
Proof.
  cbn [gt_T ge_T double_Numeric].
  rewrite ltb_spec, leb_spec. unfold SFltb, SFleb.
  destruct (SFcompare (Prim2SF b) (Prim2SF a)) as [[| |]|];
    intros Hlt; reflexivity || discriminate.
Qed.

(** X5. On a [double] table of two samples or more [get] returns a value
    for every query, NaN included, sorted samples or not: no subscript
    leaves the arrays. *)
Lemma get_returns_double {TABLE_SIZE : nat}
  (tbl : LookupTable float TABLE_SIZE) (t : float) :
  (2 <= TABLE_SIZE)%nat -> exists v, get tbl t = Returns v.
Proof.
  intros Hn. apply get_returns.
  - exact double_gt_ge.
  - left. exact Hn.
Qed.

(** C6. On a [double] table with a single sample the query NaN passes both
    boundary tests, the loop is not entered, and [m_x[high]] is read at
    [high = TABLE_SIZE = 1], outside the array. *)
Theorem get_single_sample_nan_out_of_bounds :
  size (m_x single_double) = 1 /\
  le_T nan 1%float = false /\ ge_T nan 1%float = false /\
  locate (m_x single_double) nan = Returns (0, 1) /\
  get single_double nan = OutOfBounds 1.
Proof. repeat split. Qed.

(** C7, as the claim states it, fails: on the four-sample table the search
    starts from [high = 4], not from the last index 3, and so probes index 2
    first where a search from [(0, 3)] would probe index 1. *)
Lemma search_init_counterexample :
  search_init (size (m_x scenario_int)) <> (0, size (m_x scenario_int) - 1) /\
  midpoint 0 (size (m_x scenario_int)) = 2 /\
  midpoint 0 (size (m_x scenario_int) - 1) = 1.
Proof.
  repeat split. intros Heq. discriminate Heq.
Qed.

(** C7, amended.  The search starts with [low = 0] and [high = TABLE_SIZE],
    one past the last valid index: [high] bounds the index range from
    outside, and the sample at the initial [high] does not exist. *)
Theorem search_starts_at_table_size
  {T D : Type} {E : Numeric T D} {TABLE_SIZE : nat}
  (tbl : LookupTable T TABLE_SIZE) (t : T) :
  search_init (size (m_x tbl)) = (0, Z.of_nat TABLE_SIZE) /\
  locate (m_x tbl) t = search TABLE_SIZE (m_x tbl) t 0 (Z.of_nat TABLE_SIZE) /\
  subscript (m_x tbl) (Z.of_nat TABLE_SIZE) = OutOfBounds (Z.of_nat TABLE_SIZE).
Proof.
  pose proof (m_x_size tbl) as Hx.
  unfold locate, search_init, size. rewrite Hx.
  repeat split.
  apply subscript_out_of_bounds. unfold size. lia.
Qed.

(** The number of iterations is not the same for every query: on a table of
    three samples the query 5 leaves the loop after one iteration, the query
    15 needs a second one. *)
Lemma iteration_count_depends_on_query :
  search 1 [0; 10; 20] 5 0 3 = Returns (0, 1) /\
  search 1 [0; 10; 20] 15 0 3 = OutOfFuel /\
  search 2 [0; 10; 20] 15 0 3 = Returns (1, 2).
Proof. repeat split. Qed.

(** C9. On the table [x = [0, 10, 20, 30]], [f = [0, 100, 50, 200]]:
    [get(-5) = 0], [get(0) = 0], [get(5) = 50], [get(10) = 100],
    [get(15) = 75], [get(30) = 200] and [get(35) = 200], with [double]
    samples and with integer samples. *)
Theorem scenario_values :
  (get scenario_double (-5)%float = Returns 0%float /\
   get scenario_double 0%float = Returns 0%float /\
   get scenario_double 5%float = Returns 50%float /\
   get scenario_double 10%float = Returns 100%float /\
   get scenario_double 15%float = Returns 75%float /\
   get scenario_double 30%float = Returns 200%float /\
   get scenario_double 35%float = Returns 200%float) /\
  (get scenario_int (-5) = Returns 0 /\
   get scenario_int 0 = Returns 0 /\
   get scenario_int 5 = Returns 50 /\
   get scenario_int 10 = Returns 100 /\
   get scenario_int 15 = Returns 75 /\
   get scenario_int 30 = Returns 200 /\
   get scenario_int 35 = Returns 200).
Proof. repeat split; vm_compute; reflexivity. Qed.

(** C10. Both members of a table have length [TABLE_SIZE]: the comparison
    [m_f.size() != m_x.size()] is false on every table, and the guard of
    [get] fires exactly when [TABLE_SIZE] is 0. *)
Theorem table_sizes_agree
  {T : Type} {TABLE_SIZE : nat} (tbl : LookupTable T TABLE_SIZE) :
  size (m_x tbl) = Z.of_nat TABLE_SIZE /\
  size (m_f tbl) = size (m_x tbl) /\
  negb (size (m_f tbl) =? size (m_x tbl)) = false /\
  degenerate (m_x tbl) (m_f tbl) = (TABLE_SIZE =? 0)%nat.
Proof.
  unfold size. rewrite (m_x_size tbl), (m_f_size tbl), Z.eqb_refl.
  repeat split. apply degenerate_table.
Qed.

(** * Further properties of [get] *)

(** ** The midpoint and the number of iterations *)

Section IterationFacts.
Context {T D : Type} {E : Numeric T D}.
Import SizeT SizeTFacts.

(** From bounds at most [2^k] apart the loop is over within [k] iterations. *)
Lemma search_within_log (x : list T) (t : T) :
  forall (k : nat) (low high : Z),
    0 <= low < high -> high <= size x -> size x < modulus ->
    high - low <= 2 ^ Z.of_nat k ->
    exists r, search k x t low high = Returns r.
Proof.
  intros k low high Hlh Hh Hfit Hk.
  rewrite search_branching by (unfold in_range; lia).
  revert low high Hlh Hh Hk.
  induction k as [|k IH]; intros low high Hlh Hh Hk.
  - cbn [branching_search]. rewrite sub_small by lia.
    change (2 ^ Z.of_nat 0) with 1 in Hk.
    destruct (1 <? high - low) eqn:Hgo; [apply Z.ltb_lt in Hgo; lia|].
    eexists; reflexivity.
  - cbn [branching_search]. rewrite sub_small by lia.
    destruct (1 <? high - low) eqn:Hgo; [|eexists; reflexivity].
    apply Z.ltb_lt in Hgo.
    rewrite midpoint_small by lia.
    assert (Hpow : 2 ^ Z.of_nat (S k) = 2 * 2 ^ Z.of_nat k).
    { rewrite Nat2Z.inj_succ, Z.pow_succ_r by lia. reflexivity. }
    rewrite Hpow in Hk.
    set (half := (high - low) / 2).
    assert (Hhalf : 0 < half /\ half < high - low /\
                    half <= 2 ^ Z.of_nat k /\ high - low - half <= 2 ^ Z.of_nat k).
    { unfold half. Z.div_mod_to_equations. lia. }
    destruct (subscript_in_bounds x (low + half)) as [x_mid Hx_mid]; [lia|].
    rewrite Hx_mid. cbn [bind].
    destruct (gt_T t x_mid); apply IH; lia.
Qed.

End IterationFacts.

(** X1. [low + ((high - low) >> 1)] is the rounded-down mean of [low] and
    [high] for all [size_t] values [low <= high], also when [low + high]
    does not fit a [size_t]; it lies between the two. *)
Theorem midpoint_is_mean_without_wrap (low high : Z) :
  SizeT.in_range low -> SizeT.in_range high -> low <= high ->
  midpoint low high = (low + high) / 2 /\
  low <= midpoint low high <= high.
Proof.
  unfold SizeT.in_range. intros Hl Hh Hle.
  rewrite midpoint_small by lia.
  split; Z.div_mod_to_equations; lia.
Qed.

Lemma midpoint_is_mean_without_wrap_witness :
  midpoint (2 ^ 63) (2 ^ 64 - 1) = (2 ^ 63 + (2 ^ 64 - 1)) / 2 /\
  2 ^ 63 <= midpoint (2 ^ 63) (2 ^ 64 - 1) <= 2 ^ 64 - 1.
Proof.
  apply (midpoint_is_mean_without_wrap (2 ^ 63) (2 ^ 64 - 1));
    unfold SizeT.in_range, SizeT.modulus, SizeT.bits; simpl; lia.
Defined.

(** X2. On a non-empty table of at most [2^k] samples the loop of [get] is
    over within [k] iterations, whatever the element type's comparison
    answers, and cutting it off there gives the pair [get] works with. *)
Theorem search_logarithmic
  {T D : Type} {E : Numeric T D} {TABLE_SIZE : nat}
  (tbl : LookupTable T TABLE_SIZE) (t : T) (k : nat) :
  (1 <= TABLE_SIZE)%nat ->
  Z.of_nat TABLE_SIZE <= 2 ^ Z.of_nat k ->
  exists low high,
    search k (m_x tbl) t 0 (Z.of_nat TABLE_SIZE) = Returns (low, high) /\
    locate (m_x tbl) t = Returns (low, high).
Proof.
  intros Hn Hk.
  pose proof (m_x_size tbl) as Hlen. pose proof (TABLE_SIZE_fits tbl) as Hfit.
  destruct (search_within_log (m_x tbl) t k 0 (Z.of_nat TABLE_SIZE))
    as [[low high] Hk_run]; unfold size; try lia.
  destruct (locate_exit tbl t Hn) as (low' & high' & Hloc & _).
  exists low, high. split; [exact Hk_run|].
  rewrite Hloc. f_equal.
  pose proof (locate_any_fuel tbl t _ Hloc (Nat.max k TABLE_SIZE)
                (Nat.le_max_r _ _)) as Hbig.
  rewrite (search_fuel_mono _ _ _ _ _ _ _ (Nat.le_max_l k TABLE_SIZE) Hk_run)
    in Hbig.
  congruence.
Qed.

Lemma search_logarithmic_witness :
  exists low high,
    search 2 (m_x scenario_int) 15 0 4 = Returns (low, high) /\
    locate (m_x scenario_int) 15 = Returns (low, high).
Proof.
  apply (search_logarithmic scenario_int 15 2); simpl; lia.
Defined.

(** X3. On a non-empty table the loop of [get] never reads outside the
    array and always stops, on two adjacent indices of which the lower one
    is a valid index, whatever the comparison answers (unsorted samples and
    NaN included). *)
Theorem search_loop_is_memory_safe
  {T D : Type} {E : Numeric T D} {TABLE_SIZE : nat}
  (tbl : LookupTable T TABLE_SIZE) (t : T) :
  (1 <= TABLE_SIZE)%nat ->
  exists low high x_low,
    locate (m_x tbl) t = Returns (low, high) /\
    high = low + 1 /\ 0 <= low /\ high <= Z.of_nat TABLE_SIZE /\
    subscript (m_x tbl) low = Returns x_low.
Proof.
  intros Hn.
  destruct (locate_exit tbl t Hn) as (low & high & Hloc & Hadj & Hlow & Hhigh & _).
  destruct (subscript_in_bounds (m_x tbl) low) as [x_low Hx_low].
  { unfold size. rewrite (m_x_size tbl). lia. }
  exists low, high, x_low. repeat split; assumption.
Qed.

Lemma search_loop_is_memory_safe_witness :
  exists low high x_low,
    locate (m_x flat_double) nan = Returns (low, high) /\
    high = low + 1 /\ 0 <= low /\ high <= 2 /\
    subscript (m_x flat_double) low = Returns x_low.
Proof.
  apply (search_loop_is_memory_safe flat_double nan). lia.
Defined.

Lemma get_returns_total_order_witness :
  exists v, get flat_int 7 = Returns v.
Proof.
  exact (get_returns_total_order (O := int_TotalOrder) flat_int 7).
Defined.

Lemma get_returns_double_witness :
  exists v, get scenario_double nan = Returns v.
Proof.
  apply (get_returns_double scenario_double nan). lia.
Defined.

(** ** Sorted tables *)

Section SortedFacts.
Context {T D : Type} {E : Numeric T D} {O : TotalOrder T D}.

Lemma le_T_gt_T_trans (a b t : T) :
  le_T a b = true -> gt_T t b = true -> gt_T t a = true.
Proof.
  intros Hab Hbt. rewrite gt_T_def in *.
  destruct (le_T t a) eqn:Hta; [|reflexivity].
  rewrite (le_T_trans _ _ _ Hta Hab) in Hbt. discriminate.
Qed.

Lemma is_sorted_tail (a : T) (x : list T) :
  is_sorted (a :: x) = true -> is_sorted x = true.
Proof.
  destruct x as [|b rest]; [reflexivity|].
  cbn [is_sorted]. intros Hs. apply andb_true_iff in Hs. apply Hs.
Qed.

Lemma is_sorted_head (a : T) (x : list T) (j : nat) (b : T) :
  is_sorted (a :: x) = true -> nth_error x j = Some b -> le_T a b = true.
Proof.
  revert a j. induction x as [|c rest IH]; intros a j Hs Hj.
  - destruct j; discriminate.
  - cbn [is_sorted] in Hs. apply andb_true_iff in Hs. destruct Hs as [Hac Hrest].
    destruct j as [|j].
    + injection Hj as <-. exact Hac.
    + apply (le_T_trans a c b Hac). apply (IH c j); assumption.
Qed.

(** In a sorted array a sample at a smaller index is the smaller sample. *)
Lemma is_sorted_nth (x : list T) :
  is_sorted x = true ->
  forall (i j : nat) (a b : T),
    (i <= j)%nat -> nth_error x i = Some a -> nth_error x j = Some b ->
    le_T a b = true.
Proof.
  induction x as [|c rest IH]; intros Hs i j a b Hij Hi Hj.
  - destruct i; discriminate.
  - destruct i as [|i].
    + injection Hi as <-. destruct j as [|j].
      * injection Hj as <-. apply le_T_refl.
      * apply (is_sorted_head c rest j b); assumption.
    + destruct j as [|j]; [lia|].
      apply (IH (is_sorted_tail _ _ Hs) i j); [lia | assumption | assumption].
Qed.

Lemma sorted_subscript (x : list T) (i j : Z) (a b : T) :
  is_sorted x = true -> i <= j ->
  subscript x i = Returns a -> subscript x j = Returns b ->
  le_T a b = true.
Proof.
  intros Hs Hij Hi Hj.
  apply subscript_nth_error in Hi, Hj. destruct Hi as [Hi0 Hi], Hj as [Hj0 Hj].
  apply (is_sorted_nth x Hs (Z.to_nat i) (Z.to_nat j)); [lia | assumption | assumption].
Qed.

End SortedFacts.

Section SegmentFacts.
Context {T D : Type} {E : Numeric T D} {O : TotalOrder T D}.

(** On a sorted table the search stops on the one segment whose lower sample
    is below [t] and whose upper sample is not. *)
Lemma locate_segment {TABLE_SIZE : nat}
  (tbl : LookupTable T TABLE_SIZE) (t : T) (j : Z) (a b : T) :
  is_sorted (m_x tbl) = true ->
  subscript (m_x tbl) j = Returns a ->
  subscript (m_x tbl) (j + 1) = Returns b ->
  gt_T t a = true ->
  le_T t b = true ->
  locate (m_x tbl) t = Returns (j, j + 1).
Proof.
  intros Hs Hja Hjb Hat Htb.
  pose proof (m_x_size tbl) as Hlen.
  pose proof (subscript_returns _ _ _ Hja) as Hj.
  pose proof (subscript_returns _ _ _ Hjb) as Hj1.
  unfold size in Hj, Hj1. rewrite Hlen in Hj, Hj1.
  destruct (locate_exit tbl t) as (low & high & Hloc & Hadj & Hlow & Hhigh & Hl & Hh);
    [lia|].
  rewrite Hloc.
  assert (Hx_low : exists x_low,
             subscript (m_x tbl) low = Returns x_low /\ gt_T t x_low = true).
  { destruct Hl as [-> | Hl]; [|exact Hl].
    destruct (subscript_in_bounds (m_x tbl) 0) as [x_first Hfirst].
    { unfold size. lia. }
    exists x_first. split; [exact Hfirst|].
    apply (le_T_gt_T_trans x_first a t); [|exact Hat].
    apply (sorted_subscript (m_x tbl) 0 j); assumption || lia. }
  destruct Hx_low as (x_low & Hx_low & Hlt).
  assert (Hx_high : exists x_high,
             subscript (m_x tbl) high = Returns x_high /\ gt_T t x_high = false).
  { destruct Hh as [-> | Hh]; [|exact Hh]. exfalso.
    assert (Hle : le_T b x_low = true)
      by (apply (sorted_subscript (m_x tbl) (j + 1) low); assumption || lia).
    pose proof (le_T_trans _ _ _ Htb Hle) as Hcontra.
    rewrite gt_T_def, Hcontra in Hlt. discriminate. }
  destruct Hx_high as (x_high & Hx_high & Hnot).
  assert (Hsame : low = j).
  { destruct (Z.lt_trichotomy low j) as [Hlt_j | [Heq | Hgt_j]]; [|exact Heq|].
    - exfalso.
      assert (Hle : le_T x_high a = true)
        by (apply (sorted_subscript (m_x tbl) high j); assumption || lia).
      rewrite (le_T_gt_T_trans _ _ _ Hle Hat) in Hnot. discriminate.
    - exfalso.
      assert (Hle : le_T b x_low = true)
        by (apply (sorted_subscript (m_x tbl) (j + 1) low); assumption || lia).
      pose proof (le_T_trans _ _ _ Htb Hle) as Hcontra.
      rewrite gt_T_def, Hcontra in Hlt. discriminate. }
  subst. reflexivity.
Qed.

End SegmentFacts.

(** X6. On a sorted table (equal neighbours allowed), if [x[j] < t <= x[j+1]]
    then the search of [get] stops exactly on [(j, j+1)]: the lower index is
    the last sample below [t]. *)
Theorem locate_finds_last_sample_below
  {T D : Type} {E : Numeric T D} {O : TotalOrder T D} {TABLE_SIZE : nat}
  (tbl : LookupTable T TABLE_SIZE) (t : T) (j : Z) (a b : T) :
  is_sorted (m_x tbl) = true ->
  subscript (m_x tbl) j = Returns a ->
  subscript (m_x tbl) (j + 1) = Returns b ->
  gt_T t a = true ->
  le_T t b = true ->
  locate (m_x tbl) t = Returns (j, j + 1).
Proof. apply locate_segment. Qed.

Lemma locate_finds_last_sample_below_witness :
  locate (m_x scenario_int) 20 = Returns (1, 1 + 1).
Proof.
  apply (locate_finds_last_sample_below scenario_int 20 1 10 20); reflexivity.
Defined.

(** ** Single samples and NaN queries *)

(** X9. With a totally ordered element type a table of one sample answers
    every query with that sample's dependent value. *)
Theorem single_sample_table_is_constant
  {T D : Type} {E : Numeric T D} {O : TotalOrder T D}
  (tbl : LookupTable T 1) (t f_first : T) :
  front (m_f tbl) = Returns f_first ->
  get tbl t = Returns f_first.
Proof.
  intros Hf.
  pose proof (m_x_size tbl) as Hx. pose proof (m_f_size tbl) as Hfs.
  destruct (subscript_in_bounds (m_x tbl) 0) as [x_first Hfirst];
    [unfold size; lia|].
  assert (Hback_x : back (m_x tbl) = Returns x_first).
  { rewrite back_subscript by (unfold size, SizeT.modulus; simpl; lia).
    unfold size. rewrite Hx. exact Hfirst. }
  assert (Hback_f : back (m_f tbl) = Returns f_first).
  { rewrite back_subscript by (unfold size, SizeT.modulus; simpl; lia).
    unfold size. rewrite Hfs. exact Hf. }
  destruct (le_T t x_first) eqn:Hle.
  - apply (get_at_or_below_front tbl t x_first f_first); assumption.
  - apply (get_at_or_above_back tbl t x_first x_first f_first); try assumption.
    rewrite ge_T_def.
    destruct (le_T_total t x_first) as [Htx | Hxt]; [congruence | exact Hxt].
Qed.

Lemma single_sample_table_is_constant_witness :
  get single_int 7 = Returns 2.
Proof.
  apply (single_sample_table_is_constant (O := int_TotalOrder) single_int 7 2).
  reflexivity.
Defined.

Section NeverGreater.
Context {T D : Type} {E : Numeric T D}.

(** A query that no sample is below leaves [low] where it started. *)
Lemma locate_never_greater {TABLE_SIZE : nat}
  (tbl : LookupTable T TABLE_SIZE) (t : T) :
  (1 <= TABLE_SIZE)%nat ->
  (forall v, gt_T t v = false) ->
  locate (m_x tbl) t = Returns (0, 1).
Proof.
  intros Hn Hnever.
  destruct (locate_exit tbl t Hn) as (low & high & Hloc & Hadj & _ & _ & Hl & _).
  destruct Hl as [-> | (v & _ & Hgt)].
  - rewrite Hloc, Hadj. reflexivity.
  - rewrite Hnever in Hgt. discriminate.
Qed.

End NeverGreater.

(** For [double], NaN is neither above, nor at or below, nor at or above any
    value. *)
Lemma double_nan_compares_false (v : float) :
  gt_T nan v = false /\ le_T nan v = false /\ ge_T nan v = false.
Proof.
  cbn [gt_T le_T ge_T double_Numeric].
  rewrite ltb_spec, !leb_spec. unfold SFltb, SFleb.
  change (Prim2SF nan) with S754_nan.
  destruct (Prim2SF v) as [s | s | | s m e]; repeat split.
Qed.

(** X10. On a [double] table of two samples or more the query NaN is not
    rejected and not clamped: the search stops on [(0, 1)] and [get] answers
    from the first segment, with 0 when [x[1] - x[0] == 0] and with the
    interpolation expression evaluated at NaN otherwise. *)
Theorem get_double_nan_uses_first_segment {TABLE_SIZE : nat}
  (tbl : LookupTable float TABLE_SIZE) :
  (2 <= TABLE_SIZE)%nat ->
  exists x_0 x_1 f_0 f_1,
    subscript (m_x tbl) 0 = Returns x_0 /\
    subscript (m_x tbl) 1 = Returns x_1 /\
    subscript (m_f tbl) 0 = Returns f_0 /\
    subscript (m_f tbl) 1 = Returns f_1 /\
    locate (m_x tbl) nan = Returns (0, 1) /\
    get tbl nan =
    if PrimFloat.eqb (PrimFloat.sub x_1 x_0) 0%float then Returns 0%float
    else Returns (interpolate x_0 x_1 f_0 f_1 (PrimFloat.sub x_1 x_0) nan).
Proof.
  intros Hn.
  pose proof (m_x_size tbl) as Hx. pose proof (m_f_size tbl) as Hf.
  pose proof (TABLE_SIZE_fits tbl) as Hfit.
  destruct (subscript_in_bounds (m_x tbl) 0) as [x_0 Hx0]; [unfold size; lia|].
  destruct (subscript_in_bounds (m_x tbl) 1) as [x_1 Hx1]; [unfold size; lia|].
  destruct (subscript_in_bounds (m_f tbl) 0) as [f_0 Hf0]; [unfold size; lia|].
  destruct (subscript_in_bounds (m_f tbl) 1) as [f_1 Hf1]; [unfold size; lia|].
  destruct (subscript_in_bounds (m_x tbl) (size (m_x tbl) - 1)) as [x_last Hlast];
    [unfold size; lia|].
  assert (Hloc : locate (m_x tbl) nan = Returns (0, 1)).
  { apply locate_never_greater; [lia|]. intros v. apply double_nan_compares_false. }
  exists x_0, x_1, f_0, f_1. repeat (split; [assumption|]).
  unfold get, get_on. rewrite degenerate_table.
  destruct TABLE_SIZE as [|n]; [lia|]. cbn [Nat.eqb].
  unfold front. rewrite Hx0. cbn [bind].
  destruct (double_nan_compares_false x_0) as (_ & -> & _).
  rewrite back_subscript, Hlast by (unfold size; lia). cbn [bind].
  destruct (double_nan_compares_false x_last) as (_ & _ & ->).
  rewrite Hloc. cbn [bind]. rewrite Hx1, Hx0. cbn [bind].
  cbn [to_double sub_T is_zero_D double_Numeric].
  destruct (PrimFloat.eqb (PrimFloat.sub x_1 x_0) 0); [reflexivity|].
  rewrite Hf1, Hf0. reflexivity.
Qed.

Lemma get_double_nan_uses_first_segment_witness :
  exists x_0 x_1 f_0 f_1,
    subscript (m_x scenario_double) 0 = Returns x_0 /\
    subscript (m_x scenario_double) 1 = Returns x_1 /\
    subscript (m_f scenario_double) 0 = Returns f_0 /\
    subscript (m_f scenario_double) 1 = Returns f_1 /\
    locate (m_x scenario_double) nan = Returns (0, 1) /\
    get scenario_double nan =
    if PrimFloat.eqb (PrimFloat.sub x_1 x_0) 0%float then Returns 0%float
    else Returns (interpolate x_0 x_1 f_0 f_1 (PrimFloat.sub x_1 x_0) nan).
Proof.
  apply (get_double_nan_uses_first_segment scenario_double). lia.
Defined.
